(** * SummarizeSite: a shallow embedding of [summarize2.py]

    The script fetches a web page (with [requests], falling back to a headless
    Chrome driven by Selenium), cleans the parsed document with BeautifulSoup
    and asks a text-generation service for a markdown summary.

    The development has three layers:
    - [PyStr]: the few operations on Python strings the script uses;
    - [Bs4]: the BeautifulSoup tree, its document-order traversal, [find],
      [find_all], [decompose], [string] and [get_text];
    - [Summarize]: the script itself, written in a small trace-and-exception
      monad over a [World] of external collaborators (HTTP client, HTML
      parser, web driver, text-generation client).

    Python strings are modelled by [string]; each character stands for one
    code point below 256. Exceptions are the instances of Python's
    [Exception] class, which is what the two handlers of the script
    ([except Exception]) catch; [SystemExit], raised by [sys.exit], is kept
    apart because those handlers do not catch it. *)

From Stdlib Require Import List String Ascii Bool Arith ZArith Lia.
Import ListNotations.
Local Open Scope string_scope.
Local Open Scope list_scope.

(* ================================================================== *)
(** ** Python string operations *)

Module PyStr.

(** [s.startswith(prefix)] *)
Definition startswith (s p : string) : bool := String.prefix p s.

(** [s.startswith((p1, p2, ...))]: true when [s] starts with one of them. *)
Definition startswith_any (s : string) (ps : list string) : bool :=
  existsb (startswith s) ps.

(** Whitespace as [str.strip()] sees it, for code points below 256:
    TAB..CR, FS..US, SPACE, NEL and NBSP. *)
Definition isspace (c : ascii) : bool :=
  let n := nat_of_ascii c in
  (((9 <=? n) && (n <=? 13)) || ((28 <=? n) && (n <=? 32))
   || (n =? 133) || (n =? 160))%nat.

Fixpoint lstrip (s : string) : string :=
  match s with
  | EmptyString => EmptyString
  | String c r => if isspace c then lstrip r else s
  end.

Fixpoint rstrip (s : string) : string :=
  match s with
  | EmptyString => EmptyString
  | String c r =>
      match rstrip r with
      | EmptyString => if isspace c then EmptyString else String c EmptyString
      | r' => String c r'
      end
  end.

(** [s.strip()] *)
Definition strip (s : string) : string := rstrip (lstrip s).

(** [sep.join(parts)] *)
Definition join (sep : string) (parts : list string) : string :=
  String.concat sep parts.

(** [len(s) == 0] *)
Definition is_empty (s : string) : bool :=
  match s with EmptyString => true | _ => false end.

End PyStr.

(* ================================================================== *)
(** ** The BeautifulSoup tree *)

Module Bs4.

(** The classes of string objects a parsed tree holds. [get_text] only
    keeps the first two. *)
Inductive str_kind :=
| NavigableString | CData
| Comment | Declaration | Doctype | ProcessingInstruction
| Script | Stylesheet | TemplateString
| RubyTextString | RubyParenthesisString.

(** A page element is a tag with its contents or a string. [id] stands for
    the identity of the Python object: [decompose] is called on a reference
    to an element, not on a copy of it. *)
#[warnings="-register-all"]
Inductive node :=
| Tag (id : nat) (name : string) (attrs : list (string * string))
      (contents : list node)
| Str (id : nat) (kind : str_kind) (s : string).

Definition node_id (n : node) : nat :=
  match n with Tag i _ _ _ => i | Str i _ _ => i end.

(** [tag.descendants]: every element below [n], in document order. *)
Fixpoint descendants (n : node) : list node :=
  match n with
  | Tag _ _ _ cs => flat_map (fun c => c :: descendants c) cs
  | Str _ _ _ => []
  end.

(** Does the element match one of the tag names given to [find_all]? *)
Definition name_in (names : list string) (n : node) : bool :=
  match n with
  | Tag _ nm _ _ => existsb (String.eqb nm) names
  | Str _ _ _ => false
  end.

(** [tag.find_all([name, ...])]: the matching descendants, document order. *)
Definition find_all (names : list string) (n : node) : list node :=
  filter (name_in names) (descendants n).

(** [tag.find(name)], which is what [soup.title] and [soup.body] are:
    the first matching descendant, or [None]. *)
Definition find (name : string) (n : node) : option node :=
  List.find (name_in [name]) (descendants n).

(** [extract i root]: the element of identity [i] is taken out of the tree
    below [root]. An element that is no longer in the tree (it went away
    with an ancestor) leaves the tree as it is. *)
Fixpoint extract (i : nat) (root : node) : node :=
  match root with
  | Tag j nm a cs =>
      Tag j nm a
        (flat_map
           (fun c => if (node_id c =? i)%nat then [] else [extract i c]) cs)
  | Str _ _ _ => root
  end.

(** [element.decompose()], seen from the tree [root] the element sat in. *)
Definition decompose (element root : node) : node :=
  extract (node_id element) root.

(** [tag.string]: the single string child, looked for through single tag
    children; [None] when some tag on the way has no or several children. *)
Fixpoint tag_string (n : node) : option string :=
  match n with
  | Str _ _ s => Some s
  | Tag _ _ _ [c] => tag_string c
  | Tag _ _ _ _ => None
  end.

(** The string classes [get_text] keeps by default. *)
Definition interesting (k : str_kind) : bool :=
  match k with NavigableString | CData => true | _ => false end.

(** [tag._all_strings(strip=True)]: the strings below [n] of an interesting
    class, each stripped, those that are empty once stripped skipped. *)
Definition all_strings_stripped (n : node) : list string :=
  flat_map
    (fun d =>
       match d with
       | Str _ k s =>
           if interesting k then
             let s' := PyStr.strip s in
             if PyStr.is_empty s' then [] else [s']
           else []
       | Tag _ _ _ _ => []
       end)
    (descendants n).

(** [tag.get_text(separator=sep, strip=True)] *)
Definition get_text (sep : string) (n : node) : string :=
  PyStr.join sep (all_strings_stripped n).

(** *** The cleaned tree, said without mutation *)

(** [remove_ids p root]: every element below [root] whose identity
    satisfies [p] is taken out, at once. *)
Fixpoint remove_ids (p : nat -> bool) (root : node) : node :=
  match root with
  | Tag j nm a cs =>
      Tag j nm a
        (flat_map (fun c => if p (node_id c) then [] else [remove_ids p c]) cs)
  | Str _ _ _ => root
  end.

(** [prune names root]: the tree without the elements named in [names]
    (and so without anything inside them). *)
Fixpoint prune (names : list string) (root : node) : node :=
  match root with
  | Tag j nm a cs =>
      Tag j nm a
        (flat_map (fun c => if name_in names c then [] else [prune names c])
                  cs)
  | Str _ _ _ => root
  end.

(** The elements below [n] of the original tree that are neither named in
    [names] nor inside an element named in [names], in document order. *)
Fixpoint visible_descendants (names : list string) (n : node) : list node :=
  match n with
  | Tag _ _ _ cs =>
      flat_map
        (fun c =>
           if name_in names c then [] else c :: visible_descendants names c)
        cs
  | Str _ _ _ => []
  end.

(** The block of a child: the child and what is below it. *)
Definition block (c : node) : list node := c :: descendants c.

(** Is [j] one of the identities [ids]? *)
Definition mem_id (ids : list nat) (j : nat) : bool :=
  existsb (Nat.eqb j) ids.

(** The strings of the text elements of a list of elements. *)
Definition text_strings (l : list node) : list string :=
  flat_map
    (fun d =>
       match d with
       | Str _ k s => if interesting k then [s] else []
       | Tag _ _ _ _ => []
       end)
    l.

(** [subseq l l']: [l] is [l'] with some elements left out, the others in
    their order. *)
Inductive subseq {A : Type} : list A -> list A -> Prop :=
| subseq_nil : subseq [] []
| subseq_skip x l l' : subseq l l' -> subseq l (x :: l')
| subseq_keep x l l' : subseq l l' -> subseq (x :: l) (x :: l').

(** Every element below [n] has its own identity. *)
Definition distinct_ids (n : node) : Prop :=
  NoDup (map node_id (descendants n)).

End Bs4.

(* ================================================================== *)
(** ** The script *)

Module Requests.
(** What [requests.get] returns: the script reads [content] and never
    looks at [status_code]. *)
Record Response := { status_code : Z; content : list Byte.byte }.
End Requests.

Module Anthropic.
(** One segment of a reply, and the reply of [messages.create]. *)
Record ContentBlock := { text : string }.
Record Message := { content : list ContentBlock }.

(** The keyword arguments of [messages.create]; each message is the dict
    literal of the call, kept as its list of items. *)
Record CreateParams := {
  model : string;
  max_tokens : Z;
  system : string;
  messages : list (list (string * string))
}.
End Anthropic.

Module Summarize.
Import Bs4.

(** *** Exceptions, outcomes and the trace monad *)

(** An exception: its class name and [str(e)]. *)
Record exc := mkExc { exc_type : string; exc_msg : string }.

(** What indexing an empty list raises. *)
Definition IndexError : exc := mkExc "IndexError" "list index out of range".

(** The class the docstring of [summarize] names for failures of the
    text-generation service. *)
Definition is_APIError (e : exc) : bool := String.eqb (exc_type e) "APIError".

(** A call to a collaborator raises or returns. *)
Definition result (A : Type) : Type := (exc + A)%type.

(** How a piece of the script ends: by returning, by raising an
    [Exception], or by [SystemExit] from [sys.exit]. *)
Inductive outcome (A : Type) : Type :=
| Ret (a : A)
| Raise (e : exc)
| SysExit (code : Z).
Arguments Ret {A} a.
Arguments Raise {A} e.
Arguments SysExit {A} code.

(** The argument of [BeautifulSoup(...)]: bytes from [requests], text from
    the driver. *)
Inductive markup :=
| MarkupBytes (b : list Byte.byte)
| MarkupStr (s : string).

(** The calls the script makes to the outside, in the order it makes them. *)
Inductive event :=
| Call_requests_get (url : string)
| Call_ChromeDriverManager_install
| Call_webdriver_Chrome (driver_path : string) (arguments : list string)
| Call_driver_get (url : string)
| Call_time_sleep (seconds : Z)
| Call_driver_page_source
| Call_driver_quit
| Call_messages_create (params : Anthropic.CreateParams)
| Call_print (s : string).

(** A computation: the calls it made and how it ended. *)
Definition M (A : Type) : Type := (list event * outcome A)%type.

Definition ret {A} (a : A) : M A := ([], Ret a).

Definition bind {A B} (m : M A) (k : A -> M B) : M B :=
  match m with
  | (t, Ret a) => let '(t', o) := k a in (t ++ t', o)
  | (t, Raise e) => (t, Raise e)
  | (t, SysExit c) => (t, SysExit c)
  end.

Declare Scope py_scope.
Delimit Scope py_scope with py.
Notation "x <- m ;; k" := (bind m (fun x => k))
  (at level 61, m at next level, right associativity) : py_scope.
Notation "m ;; k" := (bind m (fun _ => k))
  (at level 61, right associativity) : py_scope.
Local Open Scope py_scope.

(** [raise e] *)
Definition raise {A} (e : exc) : M A := ([], Raise e).

(** [sys.exit(code)] *)
Definition sys_exit {A} (code : Z) : M A := ([], SysExit code).

(** A pure library call that may raise. *)
Definition of_result {A} (r : result A) : M A :=
  match r with inl e => ([], Raise e) | inr a => ([], Ret a) end.

(** A call to the outside world: recorded, then raises or returns. *)
Definition call {A} (ev : event) (r : result A) : M A :=
  bind ([ev], Ret tt) (fun _ => of_result r).

(** [try: body except Exception as e: handler(e)]. [SystemExit] is not an
    [Exception] and passes through. *)
Definition try_except {A} (body : M A) (handler : exc -> M A) : M A :=
  match body with
  | (t, Raise e) => let '(t', o) := handler e in (t ++ t', o)
  | r => r
  end.

(** [try: body finally: final]. The final block runs on every way out of
    the body; when it does not return itself, its way out replaces the
    body's. *)
Definition try_finally {A} (body : M A) (final : M unit) : M A :=
  let '(t, o) := body in
  match final with
  | (t', Ret _) => (t ++ t', o)
  | (t', Raise e) => (t ++ t', Raise e)
  | (t', SysExit c) => (t ++ t', SysExit c)
  end.

(** [print(s)] *)
Definition print (s : string) : M unit := ([Call_print s], Ret tt).

(** [time.sleep(seconds)] *)
Definition time_sleep (seconds : Z) : M unit :=
  ([Call_time_sleep seconds], Ret tt).

(** *** The collaborators *)

(** What the outside answers to each call of one run of the script. *)
Record World := {
  requests_get : string -> result Requests.Response;
  BeautifulSoup : markup -> string -> result node;
  ChromeDriverManager_install : result string;
  webdriver_Chrome : string -> list string -> result unit;
  driver_get : string -> result unit;
  driver_page_source : result string;
  driver_quit : result unit;
  messages_create : Anthropic.CreateParams -> result Anthropic.Message
}.

(** *** class Website *)

(** A value that is a [str] or [None]. *)
Inductive pyval := PyNone | PyStr (s : string).

(** How an f-string renders it. *)
Definition format_value (v : pyval) : string :=
  match v with PyNone => "None" | PyStr s => s end.

Record Website := { url : string; title : pyval; text : string }.

(** The line feed of ["\n"]. *)
Definition nl : string := String (ascii_of_nat 10) EmptyString.

Definition scheme_prefixes : list string := ["http://"; "https://"].

(** The first statement of [__init__]: the URL the object keeps. *)
Definition init_url (url : string) : string :=
  if negb (PyStr.startswith_any url scheme_prefixes)
  then ("https://" ++ url)%string
  else url.

Definition irrelevant_tags : list string :=
  ["script"; "style"; "img"; "input"; "iframe"; "noscript"].

(** The loop of [_process_content]: every element [find_all] returned is
    decomposed, in the order of that list, in the one tree they share. *)
Definition remove_irrelevant (soup : node) : node :=
  fold_left (fun soup irrelevant => decompose irrelevant soup)
            (find_all irrelevant_tags soup) soup.

(** [soup.title.string if soup.title else "No title found"] *)
Definition title_of (soup : node) : pyval :=
  match find "title" soup with
  | Some t => match tag_string t with Some s => PyStr s | None => PyNone end
  | None => PyStr "No title found"
  end.

(** [soup.body.get_text(separator="\n", strip=True) if soup.body else ""] *)
Definition body_text (soup : node) : string :=
  match find "body" soup with
  | Some body => get_text nl body
  | None => ""
  end.

(** [_process_content]: the title is read first, then the tree is cleaned,
    then the text is read from the cleaned tree. *)
Definition _process_content (self_url : string) (soup : node) : Website :=
  let title := title_of soup in
  let soup := remove_irrelevant soup in
  {| url := self_url; title := title; text := body_text soup |}.

Definition _fetch_static (w : World) (self_url : string) : M Website :=
  response <- call (Call_requests_get self_url) (requests_get w self_url) ;;
  soup <- of_result
            (BeautifulSoup w (MarkupBytes (Requests.content response))
                           "html.parser") ;;
  ret (_process_content self_url soup).

Definition chrome_options : list string :=
  ["--headless"; "--disable-gpu"; "--no-sandbox"; "--disable-dev-shm-usage"].

(** The body of the [try] of [_fetch_dynamic]. *)
Definition dynamic_body (w : World) (self_url : string) : M Website :=
  call (Call_driver_get self_url) (driver_get w self_url) ;;
  time_sleep 5 ;;
  page_source <- call Call_driver_page_source (driver_page_source w) ;;
  soup <- of_result (BeautifulSoup w (MarkupStr page_source) "html.parser") ;;
  ret (_process_content self_url soup).

Definition _fetch_dynamic (w : World) (self_url : string) : M Website :=
  driver_path <- call Call_ChromeDriverManager_install
                      (ChromeDriverManager_install w) ;;
  call (Call_webdriver_Chrome driver_path chrome_options)
       (webdriver_Chrome w driver_path chrome_options) ;;
  try_finally (dynamic_body w self_url)
              (call Call_driver_quit (driver_quit w)).

(** [Website(url)] *)
Definition Website__init__ (w : World) (url : string) : M Website :=
  let url := init_url url in
  try_except (_fetch_static w url) (fun _ => _fetch_dynamic w url).

(** *** The text, in the words of the specification *)

(** The document body: the first [body] element, in document order, among
    the elements left once the excluded ones are gone. *)
Definition document_body (soup : node) : option node :=
  List.find (name_in ["body"]) (visible_descendants irrelevant_tags soup).

(** The visible text nodes under [body], in document order: the text
    strings that are not inside an excluded element. *)
Definition visible_text_nodes (body : node) : list string :=
  text_strings (visible_descendants irrelevant_tags body).

(** Each node trimmed, the nodes with nothing left dropped, the rest
    joined by newlines; the empty string without a body. *)
Definition spec_text (soup : node) : string :=
  match document_body soup with
  | Some body =>
      PyStr.join nl
        (filter (fun s => negb (PyStr.is_empty s))
                (map PyStr.strip (visible_text_nodes body)))
  | None => ""
  end.

(** *** The prompt and the request *)

Definition instruction : string :=
  "The contents of this website is as follows; please provide a short summary of this website in markdown. If it includes news or announcements, then summarize these too.".

Definition user_prompt_for (website : Website) : string :=
  let user_prompt :=
    ("You are looking at a website titled "
       ++ format_value (title website) ++ ". ")%string in
  let user_prompt := (user_prompt ++ (instruction ++ nl ++ nl))%string in
  let user_prompt := (user_prompt ++ text website)%string in
  user_prompt.

Definition system_prompt : string :=
  "You are an assistant that analyzes the contents of a website and provides a short summary, ignoring text that might be navigation related. Respond in markdown.".

Definition create_params (website : Website) : Anthropic.CreateParams :=
  {| Anthropic.model := "claude-3-opus-20240229";
     Anthropic.max_tokens := 1000;
     Anthropic.system := system_prompt;
     Anthropic.messages :=
       [[("role", "user"); ("content", user_prompt_for website)]] |}.

(** [l[0]] *)
Definition index0 {A} (l : list A) : M A :=
  match l with
  | [] => raise IndexError
  | x :: _ => ret x
  end.

Definition summarize (w : World) (url : string) : M string :=
  website <- Website__init__ w url ;;
  response <- call (Call_messages_create (create_params website))
                   (messages_create w (create_params website)) ;;
  first <- index0 (Anthropic.content response) ;;
  ret (Anthropic.text first).

(** *** main *)

Definition main (w : World) (argv : list string) : M unit :=
  if negb (List.length argv =? 2)%nat then
    print "Usage: python summarize.py <url>" ;;
    print "Examples:" ;;
    print "  python summarize.py cnn.com" ;;
    print "  python summarize.py https://www.bbc.com" ;;
    print (nl ++ "Note: Make sure you have set the ANTHROPIC_API_KEY environment variable")%string ;;
    sys_exit 1
  else
    let url := nth 1 argv "" in
    try_except
      (summary <- summarize w url ;; print summary)
      (fun e => print ("Error: " ++ exc_msg e)%string ;; sys_exit 1).

(** The exit status of the process that ran [main()]: 0 when it returns, the
    code of [sys.exit], 1 on an exception nobody caught. *)
Definition exit_status {A} (o : outcome A) : Z :=
  match o with Ret _ => 0 | SysExit c => c | Raise _ => 1 end%Z.

(** *** Words for the statements *)

(** [url] starts with one of the scheme prefixes the script recognizes. *)
Definition has_scheme (url : string) : Prop :=
  exists rest,
    url = ("http://" ++ rest)%string \/ url = ("https://" ++ rest)%string.

(** [soup] holds no element of that name. *)
Definition no_element (name : string) (soup : node) : Prop :=
  forall d, In d (descendants soup) -> name_in [name] d = false.

(** [t] is the first element of that name in document order. *)
Definition first_element (name : string) (soup t : node) : Prop :=
  exists before after,
    descendants soup = before ++ t :: after
    /\ name_in [name] t = true
    /\ forall d, In d before -> name_in [name] d = false.

Definition is_install (ev : event) : bool :=
  match ev with Call_ChromeDriverManager_install => true | _ => false end.

Definition is_quit (ev : event) : bool :=
  match ev with Call_driver_quit => true | _ => false end.

Definition is_print (ev : event) : bool :=
  match ev with Call_print _ => true | _ => false end.

(** How many of the calls made satisfy [p]. *)
Definition count (p : event -> bool) (t : list event) : nat :=
  List.length (filter p t).

(** The computation ends by raising. *)
Definition fails {A} (m : M A) : Prop := exists e, snd m = Raise e.

(** The computation ends by returning. *)
Definition returns {A} (m : M A) : Prop := exists a, snd m = Ret a.

(** The driver binary was found and the browser was launched: the script
    holds a [driver]. *)
Definition driver_started (w : World) : bool :=
  match ChromeDriverManager_install w with
  | inr driver_path =>
      match webdriver_Chrome w driver_path chrome_options with
      | inr _ => true
      | inl _ => false
      end
  | inl _ => false
  end.

(** The static step has something to raise: the GET raises, or the parser
    raises on the bytes received. *)
Definition static_raises (w : World) (self_url : string) : Prop :=
  (exists e, requests_get w self_url = inl e)
  \/ (exists r e,
        requests_get w self_url = inr r
        /\ BeautifulSoup w (MarkupBytes (Requests.content r)) "html.parser"
           = inl e).

End Summarize.

(* ================================================================== *)
(** ** Sample documents and collaborators *)

Module Examples.
Import Bs4 Summarize.

(** A string made of one line feed and two spaces. *)
Definition indent : string := (nl ++ "  ")%string.

(** The tree of
    [<html><head><title>Example</title><style>p {}</style></head>
     <body><p> Hello </p> <noscript><img src="x">hidden</noscript>
     <!--c--><script>var x;</script><p>World</p><input></body></html>] *)
Definition page : node :=
  Tag 0 "[document]" []
    [Tag 1 "html" []
       [Tag 2 "head" []
          [Tag 3 "title" [] [Str 4 NavigableString "Example"];
           Tag 5 "style" [] [Str 6 Stylesheet "p {}"]];
        Str 7 NavigableString indent;
        Tag 8 "body" []
          [Tag 9 "p" [] [Str 10 NavigableString " Hello "];
           Str 11 NavigableString " ";
           Tag 12 "noscript" []
             [Tag 13 "img" [("src", "x")] [];
              Str 14 NavigableString "hidden"];
           Str 15 Comment "c";
           Tag 16 "script" [] [Str 17 Script "var x;"];
           Tag 18 "p" [] [Str 19 NavigableString "World"];
           Tag 20 "input" [] []]]].

(** [<html><body><p>Only text</p></body></html>]: no title element. *)
Definition page_without_title : node :=
  Tag 0 "[document]" []
    [Tag 1 "html" []
       [Tag 2 "body" [] [Tag 3 "p" [] [Str 4 NavigableString "Only text"]]]].

(** [<html><head><title></title></head><body>x</body></html>] *)
Definition page_empty_title : node :=
  Tag 0 "[document]" []
    [Tag 1 "html" []
       [Tag 2 "head" [] [Tag 3 "title" [] []];
        Tag 4 "body" [] [Str 5 NavigableString "x"]]].

(** [<title><b>A</b><i>B</i></title>]: a title holding two elements. *)
Definition page_title_of_elements : node :=
  Tag 0 "[document]" []
    [Tag 1 "title" []
       [Tag 2 "b" [] [Str 3 NavigableString "A"];
        Tag 4 "i" [] [Str 5 NavigableString "B"]]].

(** [<html><head><title>T</title></head><p>loose</p></html>]: no body. *)
Definition page_without_body : node :=
  Tag 0 "[document]" []
    [Tag 1 "html" []
       [Tag 2 "head" [] [Tag 3 "title" [] [Str 4 NavigableString "T"]];
        Tag 5 "p" [] [Str 6 NavigableString "loose"]]].

Definition connection_error : exc :=
  mkExc "ConnectionError" "Failed to establish a new connection".

Definition webdriver_error : exc :=
  mkExc "WebDriverException" "unknown error: net::ERR_NAME_NOT_RESOLVED".

Definition reply (segments : list string) : Anthropic.Message :=
  {| Anthropic.content := map (fun s => {| Anthropic.text := s |}) segments |}.

(** Collaborators that answer the same whatever they are asked: the HTTP
    client by [get], the parser by [soup], the browser's launch, navigation
    and shutdown by [launch], [nav] and [quit], the text-generation service
    by a reply of the given [segments]. *)
Definition world (get : result Requests.Response) (soup : node)
    (launch nav quit : result unit) (segments : list string) : World :=
  {| requests_get := fun _ => get;
     BeautifulSoup := fun _ _ => inr soup;
     ChromeDriverManager_install := inr "/usr/local/bin/chromedriver";
     webdriver_Chrome := fun _ _ => launch;
     driver_get := fun _ => nav;
     driver_page_source := inr "<html></html>";
     driver_quit := quit;
     messages_create := fun _ => inr (reply segments) |}.

Definition ok : result unit := inr tt.

Definition not_found : Requests.Response :=
  {| Requests.status_code := 404; Requests.content := [] |}.

(** The page is served, with status 404. *)
Definition world_static : World :=
  world (inr not_found) page ok ok ok ["# Summary"].

(** The HTTP client raises and the browser works. *)
Definition world_fallback : World :=
  world (inl connection_error) page ok ok ok ["# Summary"].

(** The HTTP client raises and so does the navigation of the browser. *)
Definition world_both_fail : World :=
  world (inl connection_error) page ok (inl webdriver_error) ok ["# Summary"].

(** The page is served and the service replies with no segment. *)
Definition world_empty_reply : World :=
  world (inr not_found) page ok ok ok [].

End Examples.

(* ================================================================== *)
(** ** The start of the script and more observations *)

Module Startup.
Import Summarize.







End Startup.

Module Observations.
Import Bs4 Summarize Examples.

Definition is_get (ev : event) : bool :=
  match ev with Call_requests_get _ => true | _ => false end.

Definition is_launch (ev : event) : bool :=
  match ev with Call_webdriver_Chrome _ _ => true | _ => false end.

Definition is_navigate (ev : event) : bool :=
  match ev with Call_driver_get _ => true | _ => false end.

Definition is_sleep (ev : event) : bool :=
  match ev with Call_time_sleep _ => true | _ => false end.

Definition is_page_source (ev : event) : bool :=
  match ev with Call_driver_page_source => true | _ => false end.

Definition is_create (ev : event) : bool :=
  match ev with Call_messages_create _ => true | _ => false end.

(** The call goes to [u] when it is a call that takes a URL. *)
Definition goes_to (u : string) (ev : event) : Prop :=
  match ev with
  | Call_requests_get u' => u' = u
  | Call_driver_get u' => u' = u
  | _ => True
  end.

(** The call is one the constructor can make: not a request to the
    text-generation service and not a [print]. *)
Definition is_retrieval (ev : event) : bool :=
  negb (is_create ev) && negb (is_print ev).

Definition timeout_error : exc :=
  mkExc "TimeoutException" "timeout: Timed out receiving message from renderer".

Definition api_error : exc :=
  mkExc "APIError" "Connection error.".

(** The HTTP client raises, the browser renders the page, and its shutdown
    raises. *)
Definition world_quit_fails : World :=
  world (inl connection_error) page ok ok (inl timeout_error) ["# Summary"].

(** The page is served and the text-generation service raises. *)
Definition world_service_fails : World :=
  {| requests_get := fun _ => inr not_found;
     BeautifulSoup := fun _ _ => inr page;
     ChromeDriverManager_install := inr "/usr/local/bin/chromedriver";
     webdriver_Chrome := fun _ _ => ok;
     driver_get := fun _ => ok;
     driver_page_source := inr "<html></html>";
     driver_quit := ok;
     messages_create := fun _ => inl api_error |}.



(** What [get_text] joins: pieces that are not empty, start with something
    that is not a space and stay as they are when stripped on the right. *)
Definition piece_ok (p : string) : Prop :=
  (exists c r, p = String c r /\ PyStr.isspace c = false)
  /\ PyStr.rstrip p = p.

End Observations.

(* ================================================================== *)
(** ** Facts about the tree operations *)

Module Bs4Facts.
Import Bs4.

(** Induction on a tree, with the hypothesis for every child. *)
Lemma node_induction (P : node -> Prop)
  (Htag : forall i nm a cs, Forall P cs -> P (Tag i nm a cs))
  (Hstr : forall i k s, P (Str i k s)) :
  forall n, P n.
Proof.
  fix IH 1. intros [i nm a cs | i k s].
  - apply Htag. induction cs as [|c cs IHcs]; constructor; [apply IH | exact IHcs].
  - apply Hstr.
Qed.

Lemma flat_map_ext_in {A B} (f g : A -> list B) (l : list A) :
  (forall x, In x l -> f x = g x) -> flat_map f l = flat_map g l.
Proof.
  induction l as [|x l IH]; simpl; intros H; [reflexivity|].
  rewrite (H x (or_introl eq_refl)), IH; [reflexivity|].
  intros y Hy. apply H. now right.
Qed.

Lemma remove_ids_id p n : node_id (remove_ids p n) = node_id n.
Proof. destruct n; reflexivity. Qed.

Lemma remove_ids_ext p q n :
  (forall i, p i = q i) -> remove_ids p n = remove_ids q n.
Proof.
  intros Hpq. induction n as [i nm a cs IH | i k s] using node_induction;
    simpl; [|reflexivity].
  f_equal. apply flat_map_ext_in. intros c Hc.
  rewrite Hpq. rewrite Forall_forall in IH. now rewrite (IH c Hc).
Qed.

Lemma remove_ids_none n : remove_ids (fun _ => false) n = n.
Proof.
  induction n as [i nm a cs IH | i k s] using node_induction;
    simpl; [|reflexivity].
  f_equal. induction cs as [|c cs IHcs]; simpl; [reflexivity|].
  inversion IH as [|? ? Hc Hcs]; subst. now rewrite Hc, IHcs.
Qed.

Lemma extract_remove_ids i n :
  extract i n = remove_ids (fun j => (j =? i)%nat) n.
Proof.
  induction n as [j nm a cs IH | j k s] using node_induction;
    simpl; [|reflexivity].
  f_equal. apply flat_map_ext_in. intros c Hc.
  rewrite Forall_forall in IH. now rewrite (IH c Hc).
Qed.

(** Two removals in a row are one removal of both sets. *)
Lemma remove_ids_twice p q n :
  remove_ids p (remove_ids q n) = remove_ids (fun i => q i || p i) n.
Proof.
  induction n as [j nm a cs IH | j k s] using node_induction;
    simpl; [|reflexivity].
  f_equal. induction cs as [|c cs IHcs]; simpl; [reflexivity|].
  inversion IH as [|? ? Hc Hcs]; subst.
  destruct (q (node_id c)) eqn:Hq; simpl.
  - now apply IHcs.
  - rewrite remove_ids_id. destruct (p (node_id c)); simpl.
    + now apply IHcs.
    + rewrite Hc. f_equal. now apply IHcs.
Qed.

Lemma fold_extract_from q ids n :
  fold_left (fun s i => extract i s) ids (remove_ids q n)
  = remove_ids (fun j => q j || mem_id ids j) n.
Proof.
  revert q. induction ids as [|i ids IH]; intros q; simpl.
  - apply remove_ids_ext. intros j. now rewrite orb_false_r.
  - rewrite extract_remove_ids, remove_ids_twice, IH.
    apply remove_ids_ext. intros j. now rewrite orb_assoc.
Qed.

Lemma fold_decompose_remove_ids (l : list node) n :
  fold_left (fun s e => decompose e s) l n
  = remove_ids (mem_id (map node_id l)) n.
Proof.
  transitivity (fold_left (fun s i => extract i s) (map node_id l) n).
  - revert n. induction l as [|e l IH]; intros n; simpl; [reflexivity|].
    apply IH.
  - rewrite <- (remove_ids_none n) at 1. rewrite fold_extract_from.
    now apply remove_ids_ext.
Qed.

Lemma in_descendants_child c cs i nm a d :
  In c cs -> (d = c \/ In d (descendants c)) ->
  In d (descendants (Tag i nm a cs)).
Proof.
  intros Hc Hd. simpl. apply in_flat_map. exists c. split; [exact Hc|].
  simpl. destruct Hd; [left; congruence | now right].
Qed.

(** Removing by identity is pruning by name when the identities removed
    are those of the named elements. *)
Lemma remove_ids_prune names p n :
  (forall d, In d (descendants n) -> p (node_id d) = name_in names d) ->
  remove_ids p n = prune names n.
Proof.
  induction n as [i nm a cs IH | i k s] using node_induction;
    intros H; simpl; [|reflexivity].
  f_equal. apply flat_map_ext_in. intros c Hc.
  rewrite (H c) by (eapply in_descendants_child; eauto).
  rewrite Forall_forall in IH. rewrite (IH c Hc); [reflexivity|].
  intros d Hd. apply H. eapply in_descendants_child; eauto.
Qed.

Lemma NoDup_map_inj {A B} (f : A -> B) (l : list A) x y :
  NoDup (map f l) -> In x l -> In y l -> f x = f y -> x = y.
Proof.
  induction l as [|z l IH]; simpl; intros Hnd Hx Hy Hf; [contradiction|].
  inversion Hnd as [|? ? Hnin Hnd']; subst.
  destruct Hx as [->|Hx], Hy as [->|Hy]; try reflexivity.
  - exfalso. apply Hnin. rewrite Hf. now apply in_map.
  - exfalso. apply Hnin. rewrite <- Hf. now apply in_map.
  - now apply IH.
Qed.

Lemma mem_id_found names n d :
  distinct_ids n -> In d (descendants n) ->
  mem_id (map node_id (find_all names n)) (node_id d) = name_in names d.
Proof.
  intros Hnd Hd. unfold mem_id, find_all.
  destruct (name_in names d) eqn:Hname.
  - apply existsb_exists. exists (node_id d). split; [|apply Nat.eqb_refl].
    apply in_map, filter_In. now split.
  - apply not_true_is_false. intros Hex.
    apply existsb_exists in Hex. destruct Hex as [j [Hj Heq]].
    apply Nat.eqb_eq in Heq. subst j.
    apply in_map_iff in Hj. destruct Hj as [m [Hid Hm]].
    apply filter_In in Hm. destruct Hm as [Hm Hmn].
    assert (m = d) by (eapply NoDup_map_inj; eauto). subst m. congruence.
Qed.

(** The loop that decomposes what [find_all] returned leaves the pruned
    tree. *)
Lemma decompose_all_prune names n :
  distinct_ids n ->
  fold_left (fun s e => decompose e s) (find_all names n) n = prune names n.
Proof.
  intros Hnd. rewrite fold_decompose_remove_ids.
  apply remove_ids_prune. intros d Hd. now apply mem_id_found.
Qed.

Lemma prune_name_in names ns d : name_in ns (prune names d) = name_in ns d.
Proof. destruct d; reflexivity. Qed.

(** Below the pruned tree are the pruned visible elements of the original
    tree, in the same order. *)
Lemma descendants_prune names n :
  descendants (prune names n) = map (prune names) (visible_descendants names n).
Proof.
  induction n as [i nm a cs IH | i k s] using node_induction;
    simpl; [|reflexivity].
  induction cs as [|c cs IHcs]; simpl; [reflexivity|].
  inversion IH as [|? ? Hc Hcs]; subst.
  destruct (name_in names c); simpl.
  - now apply IHcs.
  - rewrite map_app, Hc. do 2 f_equal. now apply IHcs.
Qed.

Lemma find_map {A B} (p : B -> bool) (f : A -> B) (l : list A) :
  List.find p (map f l) = option_map f (List.find (fun x => p (f x)) l).
Proof.
  induction l as [|x l IH]; simpl; [reflexivity|].
  destruct (p (f x)); [reflexivity | exact IH].
Qed.

Lemma find_prune names nm n :
  find nm (prune names n)
  = option_map (prune names)
      (List.find (name_in [nm]) (visible_descendants names n)).
Proof.
  unfold find. rewrite descendants_prune, find_map.
  f_equal. clear. induction (visible_descendants names n) as [|d l IH];
    simpl; [reflexivity|].
  now rewrite prune_name_in, IH.
Qed.

Lemma all_strings_stripped_prune names n :
  all_strings_stripped (prune names n)
  = filter (fun s => negb (PyStr.is_empty s))
      (map PyStr.strip (text_strings (visible_descendants names n))).
Proof.
  unfold all_strings_stripped, text_strings. rewrite descendants_prune.
  induction (visible_descendants names n) as [|d l IH]; simpl; [reflexivity|].
  rewrite map_app, filter_app, IH. f_equal.
  destruct d as [i nm a cs | i k s]; simpl; [reflexivity|].
  destruct (interesting k); simpl; [|reflexivity].
  now destruct (PyStr.is_empty (PyStr.strip s)).
Qed.

(** What is visible is below, in the same order. *)
Lemma visible_descendants_incl names n d :
  In d (visible_descendants names n) -> In d (descendants n).
Proof.
  revert d. induction n as [i nm a cs IH | i k s] using node_induction;
    simpl; intros d Hd; [|contradiction].
  rewrite Forall_forall in IH.
  apply in_flat_map in Hd. destruct Hd as [c [Hc Hd]].
  apply in_flat_map. exists c. split; [exact Hc|].
  destruct (name_in names c); [contradiction|].
  destruct Hd as [->|Hd]; [now left | right; now apply IH].
Qed.

(** No element named in [names] is visible. *)
Lemma visible_descendants_unnamed names n d :
  In d (visible_descendants names n) -> name_in names d = false.
Proof.
  revert d. induction n as [i nm a cs IH | i k s] using node_induction;
    simpl; intros d Hd; [|contradiction].
  rewrite Forall_forall in IH.
  apply in_flat_map in Hd. destruct Hd as [c [Hc Hd]].
  destruct (name_in names c) eqn:Hn; [contradiction|].
  destruct Hd as [<-|Hd]; [exact Hn | now apply (IH c Hc)].
Qed.

(** Nothing is lost where nothing is named. *)
Lemma visible_descendants_all names n :
  (forall d, In d (descendants n) -> name_in names d = false) ->
  visible_descendants names n = descendants n.
Proof.
  induction n as [i nm a cs IH | i k s] using node_induction;
    intros H; simpl; [|reflexivity].
  apply flat_map_ext_in. intros c Hc.
  rewrite (H c) by (eapply in_descendants_child; eauto).
  rewrite Forall_forall in IH. rewrite (IH c Hc); [reflexivity|].
  intros d Hd. apply H. eapply in_descendants_child; eauto.
Qed.

Lemma subseq_nil_l {A} (l : list A) : subseq [] l.
Proof. induction l; constructor; assumption. Qed.

Lemma subseq_app {A} (l1 l1' l2 l2' : list A) :
  subseq l1 l1' -> subseq l2 l2' -> subseq (l1 ++ l2) (l1' ++ l2').
Proof.
  intros H1 H2. induction H1; simpl; [exact H2 | |]; constructor; assumption.
Qed.

(** What is visible comes in the order of the document. *)
Lemma visible_descendants_subseq names n :
  subseq (visible_descendants names n) (descendants n).
Proof.
  induction n as [i nm a cs IH | i k s] using node_induction;
    simpl; [|constructor].
  induction cs as [|c cs IHcs]; simpl; [constructor|].
  inversion IH as [|? ? Hc Hcs]; subst.
  destruct (name_in names c).
  - apply (subseq_app [] (c :: descendants c)); [apply subseq_nil_l|].
    now apply IHcs.
  - apply (subseq_app (c :: visible_descendants names c)
                      (c :: descendants c));
      [now constructor | now apply IHcs].
Qed.

(** An element with no named element on the way down to it, itself
    included, is visible. *)
Lemma visible_when_unhidden names n d :
  In d (descendants n) ->
  (forall e, In e (descendants n) -> d = e \/ In d (descendants e) ->
             name_in names e = false) ->
  In d (visible_descendants names n).
Proof.
  revert d. induction n as [i nm a cs IH | i k s] using node_induction;
    simpl; intros d Hd Hun; [|contradiction].
  rewrite Forall_forall in IH.
  apply in_flat_map in Hd. destruct Hd as [c [Hc Hd]].
  apply in_flat_map. exists c. split; [exact Hc|].
  assert (Hcn : name_in names c = false).
  { apply Hun.
    - apply in_flat_map. exists c. split; [exact Hc | now left].
    - destruct Hd as [Hd|Hd]; [left; congruence | now right]. }
  rewrite Hcn. destruct Hd as [Hd|Hd]; [now left | right].
  apply (IH c Hc d Hd). intros e He Hde. apply Hun; [|exact Hde].
  apply in_flat_map. exists c. split; [exact Hc | now right].
Qed.

Lemma descendants_trans n e x :
  In e (descendants n) -> In x (descendants e) -> In x (descendants n).
Proof.
  revert e x. induction n as [i nm a cs IH | i k s] using node_induction;
    simpl; intros e x He Hx; [|contradiction].
  rewrite Forall_forall in IH.
  apply in_flat_map in He. destruct He as [c [Hc He]].
  apply in_flat_map. exists c. split; [exact Hc|].
  destruct He as [<-|He]; [now right | right; eapply IH; eauto].
Qed.

Lemma visible_descendants_trans names n d x :
  In d (visible_descendants names n) ->
  In x (visible_descendants names d) ->
  In x (visible_descendants names n).
Proof.
  revert d x. induction n as [i nm a cs IH | i k s] using node_induction;
    simpl; intros d x Hd Hx; [|contradiction].
  rewrite Forall_forall in IH.
  apply in_flat_map in Hd. destruct Hd as [c [Hc Hd]].
  apply in_flat_map. exists c. split; [exact Hc|].
  destruct (name_in names c); [contradiction|].
  destruct Hd as [<-|Hd]; [now right | right; eapply IH; eauto].
Qed.

Lemma NoDup_app_parts {A} (l1 l2 : list A) :
  NoDup (l1 ++ l2) ->
  NoDup l1 /\ NoDup l2 /\ (forall x, In x l1 -> In x l2 -> False).
Proof.
  induction l1 as [|a l1 IH]; simpl; intros H.
  - repeat split; [constructor | exact H | contradiction].
  - inversion H as [|? ? Hnin Hnd]; subst.
    destruct (IH Hnd) as [H1 [H2 H3]]. repeat split.
    + constructor; [|exact H1]. intros Hin. apply Hnin, in_or_app. now left.
    + exact H2.
    + intros x [->|Hx] Hx2; [apply Hnin, in_or_app; now right | eauto].
Qed.

(** With distinct identities, each child's block has distinct identities
    and an identity sits in one block only. *)
Lemma blocks_distinct cs :
  NoDup (map node_id (flat_map block cs)) ->
  (forall c, In c cs -> NoDup (map node_id (block c)))
  /\ (forall c c' x x', In c cs -> In c' cs -> In x (block c) ->
        In x' (block c') -> node_id x = node_id x' -> c = c').
Proof.
  induction cs as [|c0 cs IH]; intros Hnd.
  - split; simpl; intros; contradiction.
  - cbn [flat_map] in Hnd. rewrite map_app in Hnd.
    destruct (NoDup_app_parts _ _ Hnd) as [H0 [Hrest Hdisj]].
    destruct (IH Hrest) as [IH1 IH2]. split.
    + intros c [<-|Hc]; [exact H0 | now apply IH1].
    + intros c c' x x' [<-|Hc] [<-|Hc'] Hx Hx' Hid; try reflexivity;
        [| |eapply IH2; eauto].
      * exfalso. apply (Hdisj (node_id x)); [now apply in_map|].
        rewrite Hid. apply in_map, in_flat_map. now exists c'.
      * exfalso. apply (Hdisj (node_id x')); [now apply in_map|].
        rewrite <- Hid. apply in_map, in_flat_map. now exists c.
Qed.

(** With distinct identities, an element is not below itself. *)
Lemma not_below_itself c :
  NoDup (map node_id (block c)) -> ~ In c (descendants c).
Proof.
  unfold block. simpl. intros Hnd Hin.
  inversion Hnd as [|? ? Hnin _]; subst. apply Hnin. now apply in_map.
Qed.

(** Nothing below an element named in [names], and not that element
    either, is visible. *)
Lemma hidden_below_named names n e x :
  distinct_ids n ->
  In e (descendants n) -> name_in names e = true ->
  x = e \/ In x (descendants e) ->
  ~ In x (visible_descendants names n).
Proof.
  unfold distinct_ids. revert e x.
  induction n as [i nm a cs IH | i k s] using node_induction;
    simpl; intros e x Hnd He Hname Hx Hvis; [|contradiction].
  rewrite Forall_forall in IH.
  destruct (blocks_distinct cs Hnd) as [Hblock Hone].
  apply in_flat_map in He. destruct He as [c [Hc He]].
  apply in_flat_map in Hvis. destruct Hvis as [c' [Hc' Hvis]].
  destruct (name_in names c') eqn:Hn'; [contradiction|].
  assert (Hxc : In x (block c)).
  { unfold block. destruct He as [Hce|He].
    - destruct Hx as [Hx|Hx]; [left; congruence | right; now rewrite Hce].
    - right. destruct Hx as [Hx|Hx]; [now rewrite Hx|].
      eapply descendants_trans; eauto. }
  assert (Hxc' : In x (block c')).
  { unfold block. destruct Hvis as [Hvis|Hvis]; [now left|].
    right. eapply visible_descendants_incl; eauto. }
  assert (Hcc : c = c') by (eapply Hone; eauto). subst c'.
  pose proof (Hblock c Hc) as Hndc.
  destruct He as [Hce|He]; [congruence|].
  destruct Hvis as [Hvis|Hvis].
  - subst x. destruct Hx as [Hx|Hx].
    + subst e. now apply (not_below_itself c).
    + apply (not_below_itself c Hndc). eapply descendants_trans; eauto.
  - apply (IH c Hc e x); auto.
    unfold block in Hndc. simpl in Hndc. now inversion Hndc.
Qed.

(** With distinct identities, the visible elements are those with no
    named element on the way down to them, themselves included. *)
Lemma visible_descendants_iff names n d :
  distinct_ids n ->
  In d (visible_descendants names n)
  <-> In d (descendants n)
      /\ forall e, In e (descendants n) -> d = e \/ In d (descendants e) ->
                   name_in names e = false.
Proof.
  intros Hids. split.
  - intros Hd. split; [now apply visible_descendants_incl in Hd|].
    intros e He Hde. destruct (name_in names e) eqn:Hn; [|reflexivity].
    exfalso. exact (hidden_below_named names n e d Hids He Hn Hde Hd).
  - intros [Hd Hun]. now apply visible_when_unhidden.
Qed.

End Bs4Facts.

(* ================================================================== *)
(** ** The script meets its specification *)

Module SummarizeFacts.
Import Bs4 Bs4Facts Summarize Examples.

(** *** Strings *)

Lemma startswith_iff s p :
  PyStr.startswith s p = true <-> exists rest, s = (p ++ rest)%string.
Proof.
  unfold PyStr.startswith. revert s.
  induction p as [|a p IH]; intros s; simpl.
  - split; [intros _; now exists s | now destruct s].
  - destruct s as [|b s]; simpl.
    + split; [discriminate | intros [rest H]; discriminate].
    + destruct (ascii_dec a b) as [->|Hab].
      * rewrite IH. split; intros [rest H]; exists rest; congruence.
      * split; [discriminate | intros [rest H]; congruence].
Qed.

Lemma has_scheme_iff url :
  PyStr.startswith_any url scheme_prefixes = true <-> has_scheme url.
Proof.
  unfold PyStr.startswith_any, scheme_prefixes, has_scheme. simpl.
  rewrite orb_false_r, orb_true_iff, !startswith_iff.
  split.
  - intros [[r H]|[r H]]; exists r; auto.
  - intros [r [H|H]]; [left | right]; now exists r.
Qed.

Lemma append_assoc (a b c : string) :
  ((a ++ b) ++ c = a ++ (b ++ c))%string.
Proof. induction a as [|x a IH]; simpl; [reflexivity | now rewrite IH]. Qed.

(** *** Running the script *)

Ltac is_oracle x :=
  lazymatch x with
  | requests_get _ _ => idtac
  | BeautifulSoup _ _ _ => idtac
  | ChromeDriverManager_install _ => idtac
  | webdriver_Chrome _ _ _ => idtac
  | driver_get _ _ => idtac
  | driver_page_source _ => idtac
  | driver_quit _ => idtac
  | messages_create _ _ => idtac
  end.

(** Case analysis on what each collaborator answered. *)
Ltac oracle_cases :=
  repeat match goal with
         | |- context [match ?x with _ => _ end] =>
             is_oracle x; destruct x eqn:?
         end.

Ltac run :=
  cbv [Website__init__ _fetch_static _fetch_dynamic dynamic_body try_except
       try_finally call time_sleep of_result bind ret raise sys_exit print
       driver_started];
  oracle_cases; cbn [app fst snd].

Lemma fetch_static_run w u :
  _fetch_static w u
  = ([Call_requests_get u],
     match requests_get w u with
     | inl e => Raise e
     | inr r =>
         match BeautifulSoup w (MarkupBytes (Requests.content r))
                             "html.parser" with
         | inl e => Raise e
         | inr soup => Ret (_process_content u soup)
         end
     end).
Proof. run; reflexivity. Qed.

Lemma fetch_static_fails_iff w u :
  fails (_fetch_static w u) <-> static_raises w u.
Proof.
  unfold fails, static_raises. rewrite fetch_static_run. cbn [snd].
  destruct (requests_get w u) as [e|r].
  - split; [intros _; left | intros _]; now exists e.
  - destruct (BeautifulSoup w (MarkupBytes (Requests.content r))
                            "html.parser") as [e|soup] eqn:Hp.
    + split; [intros _; right; now exists r, e | intros _; now exists e].
    + split.
      * intros [e H]. discriminate.
      * intros [[e H]|[r' [e [Hr H]]]]; [discriminate|].
        inversion Hr; subst r'. congruence.
Qed.

Lemma fetch_static_outcome w u :
  fails (_fetch_static w u) \/ returns (_fetch_static w u).
Proof.
  unfold fails, returns. rewrite fetch_static_run. cbn [snd].
  oracle_cases; eauto.
Qed.

Lemma fetch_dynamic_outcome w u :
  fails (_fetch_dynamic w u) \/ returns (_fetch_dynamic w u).
Proof. unfold fails, returns. run; eauto. Qed.

Lemma init_run w url :
  Website__init__ w url
  = match _fetch_static w (init_url url) with
    | (t, Raise _) =>
        (t ++ fst (_fetch_dynamic w (init_url url)),
         snd (_fetch_dynamic w (init_url url)))
    | r => r
    end.
Proof.
  unfold Website__init__, try_except.
  destruct (_fetch_static w (init_url url)) as [t [a|e|c]]; try reflexivity.
  now destruct (_fetch_dynamic w (init_url url)).
Qed.

Lemma count_app p t t' : count p (t ++ t') = count p t + count p t'.
Proof. unfold count. now rewrite filter_app, length_app. Qed.

Lemma fetch_static_no_install w u :
  count is_install (fst (_fetch_static w u)) = 0.
Proof. now rewrite fetch_static_run. Qed.

Lemma fetch_dynamic_installs_once w u :
  count is_install (fst (_fetch_dynamic w u)) = 1.
Proof. run; reflexivity. Qed.

(** Whatever way [_fetch_dynamic] ends: with a driver in hand, [quit] is
    called once and is the last call; without one (the driver binary or
    the launch failed), the step raised and there is nothing to quit. *)
Lemma fetch_dynamic_released w u :
  if driver_started w
  then count is_quit (fst (_fetch_dynamic w u)) = 1
       /\ exists t, fst (_fetch_dynamic w u) = t ++ [Call_driver_quit]
  else count is_quit (fst (_fetch_dynamic w u)) = 0
       /\ fails (_fetch_dynamic w u).
Proof.
  unfold fails. run;
    (split; [reflexivity|]);
    first [ eexists; reflexivity
          | eexists [_; _; _]; reflexivity
          | eexists [_; _; _; _; _]; reflexivity ].
Qed.

Lemma fetch_static_url w u t site :
  _fetch_static w u = (t, Ret site) -> url site = u.
Proof. revert t site. run; intros t site H; inversion H; reflexivity. Qed.

Lemma fetch_dynamic_url w u t site :
  _fetch_dynamic w u = (t, Ret site) -> url site = u.
Proof. revert t site. run; intros t site H; inversion H; reflexivity. Qed.

Lemma init_url_recorded w url t site :
  Website__init__ w url = (t, Ret site) -> Summarize.url site = init_url url.
Proof.
  rewrite init_run.
  destruct (_fetch_static w (init_url url)) as [t1 [a|e|c]] eqn:Hs; intros H.
  - inversion H; subst. eapply fetch_static_url; eauto.
  - destruct (_fetch_dynamic w (init_url url)) as [t2 o] eqn:Hd.
    cbn [fst snd] in H. inversion H; subst.
    eapply fetch_dynamic_url; eauto.
  - discriminate.
Qed.

Lemma init_outcome w url :
  fails (Website__init__ w url) \/ returns (Website__init__ w url).
Proof.
  rewrite init_run.
  pose proof (fetch_static_outcome w (init_url url)) as Hs.
  pose proof (fetch_dynamic_outcome w (init_url url)) as Hd.
  unfold fails, returns in *.
  destruct (_fetch_static w (init_url url)) as [t1 [a|e1|c]];
    cbn [fst snd] in *; eauto.
Qed.

(** *** The constructor *)

(** C3. Normalization of the URL: an input that starts with neither
    [http://] nor [https://] gets [https://] put in front, once; an input
    that starts with one of them is kept as it is; so the result always has
    a scheme, normalizing it again changes nothing, and the object built
    keeps the normalized URL. *)
Theorem C3_init_url_prefixes_once (url : string) :
  (~ has_scheme url -> init_url url = ("https://" ++ url)%string)
  /\ (has_scheme url -> init_url url = url)
  /\ has_scheme (init_url url)
  /\ init_url (init_url url) = init_url url
  /\ (forall w t site,
        Website__init__ w url = (t, Ret site) ->
        Summarize.url site = init_url url).
Proof.
  assert (Hhas : forall u, has_scheme u -> init_url u = u).
  { intros u H. unfold init_url. apply has_scheme_iff in H. now rewrite H. }
  assert (Hres : has_scheme (init_url url)).
  { unfold init_url.
    destruct (PyStr.startswith_any url scheme_prefixes) eqn:E; simpl.
    - now apply has_scheme_iff.
    - exists url. now right. }
  repeat split; auto.
  - intros H. unfold init_url.
    destruct (PyStr.startswith_any url scheme_prefixes) eqn:E;
      [|reflexivity].
    exfalso. now apply H, has_scheme_iff.
  - intros w t site. apply init_url_recorded.
Qed.

(** C3 at ["example.com"] (no scheme) and ["http://example.com"]. *)
Lemma C3_init_url_witness :
  init_url "example.com" = "https://example.com"
  /\ init_url "http://example.com" = "http://example.com"
  /\ init_url (init_url "example.com") = "https://example.com".
Proof.
  split; [|split].
  - destruct (C3_init_url_prefixes_once "example.com") as [H _].
    reflexivity.
  - destruct (C3_init_url_prefixes_once "http://example.com") as [_ [H _]].
    apply H. exists "example.com". now left.
  - reflexivity.
Defined.

(** C1. When the static step raises, the constructor runs the dynamic step,
    once (its first call, the installation of the driver, is made exactly
    once), and ends the way the dynamic step ends: an exception of the
    dynamic step is the exception of the constructor, nothing catches it.
    On every way out of the dynamic step the browser is released: once the
    script holds a driver, [quit] is called exactly once and is the step's
    last call, whether the step returns or raises; when no driver was
    obtained the step raised and there is nothing to quit. *)
Theorem C1_fallback_once_and_browser_released (w : World) (url : string) :
  let dynamic := _fetch_dynamic w (init_url url) in
  (forall t1 e1,
      _fetch_static w (init_url url) = (t1, Raise e1) ->
      Website__init__ w url = (t1 ++ fst dynamic, snd dynamic)
      /\ count is_install (fst (Website__init__ w url)) = 1
      /\ (forall e2, snd dynamic = Raise e2 ->
                     snd (Website__init__ w url) = Raise e2))
  /\ (forall u,
        if driver_started w
        then count is_quit (fst (_fetch_dynamic w u)) = 1
             /\ exists t, fst (_fetch_dynamic w u) = t ++ [Call_driver_quit]
        else count is_quit (fst (_fetch_dynamic w u)) = 0
             /\ fails (_fetch_dynamic w u)).
Proof.
  cbv zeta. split.
  - intros t1 e1 Hs.
    assert (Hrun : Website__init__ w url
                   = (t1 ++ fst (_fetch_dynamic w (init_url url)),
                      snd (_fetch_dynamic w (init_url url)))).
    { rewrite init_run, Hs. reflexivity. }
    split; [exact Hrun|]. rewrite Hrun. cbn [fst snd]. split.
    + rewrite count_app, fetch_dynamic_installs_once.
      pose proof (fetch_static_no_install w (init_url url)) as H0.
      rewrite Hs in H0. cbn [fst] in H0. now rewrite H0.
    + auto.
  - intros u. apply fetch_dynamic_released.
Qed.

(** C1 where the HTTP client raises and the navigation of the browser
    raises too: one installation, one launch, one [quit], and the
    browser's exception is the constructor's. *)
Lemma C1_fallback_witness :
  Website__init__ world_both_fail "example.com"
  = ([Call_requests_get "https://example.com";
      Call_ChromeDriverManager_install;
      Call_webdriver_Chrome "/usr/local/bin/chromedriver" chrome_options;
      Call_driver_get "https://example.com";
      Call_driver_quit],
     Raise webdriver_error)
  /\ count is_install (fst (Website__init__ world_both_fail "example.com")) = 1
  /\ count is_quit (fst (_fetch_dynamic world_both_fail "https://example.com")) = 1.
Proof.
  destruct (C1_fallback_once_and_browser_released world_both_fail "example.com")
    as [H Hq].
  destruct (H [Call_requests_get "https://example.com"] connection_error
              eq_refl) as [H1 [H2 _]].
  split; [exact H1|]. split; [exact H2|].
  exact (proj1 (Hq "https://example.com")).
Defined.

(** C6. The constructor raises exactly when the static step raises and the
    dynamic step raises; the exception is then the one of the dynamic step.
    In every other case it returns a [Website]. In terms of the
    collaborators: the static step raises exactly when the GET or the
    parser raises. *)
Theorem C6_init_fails_iff_both_fail (w : World) (url : string) :
  let u := init_url url in
  (fails (Website__init__ w url)
   <-> fails (_fetch_static w u) /\ fails (_fetch_dynamic w u))
  /\ (fails (Website__init__ w url) \/ returns (Website__init__ w url))
  /\ (forall e, snd (Website__init__ w url) = Raise e ->
                snd (_fetch_dynamic w u) = Raise e)
  /\ (fails (_fetch_static w u) <-> static_raises w u).
Proof.
  cbv zeta. rewrite init_run.
  pose proof (fetch_static_outcome w (init_url url)) as Hs.
  pose proof (fetch_dynamic_outcome w (init_url url)) as Hd.
  pose proof (fetch_static_fails_iff w (init_url url)) as Hiff.
  unfold fails, returns in *.
  destruct (_fetch_static w (init_url url)) as [t1 [a|e1|c]];
    cbn [fst snd] in *.
  - split; [|split; [|split]].
    + split; [intros [e H] | intros [[e H] _]]; discriminate.
    + right. now exists a.
    + intros e H. discriminate.
    + exact Hiff.
  - split; [|split; [|split]].
    + split; [intros H; split; [now exists e1 | exact H] | intros [_ H]; exact H].
    + exact Hd.
    + auto.
    + exact Hiff.
  - destruct Hs as [[e H]|[a H]]; discriminate.
Qed.

(** C6 where both steps raise, and where only the static one does. *)
Lemma C6_init_witness :
  fails (Website__init__ world_both_fail "example.com")
  /\ returns (Website__init__ world_fallback "example.com").
Proof.
  split.
  - apply (proj1 (C6_init_fails_iff_both_fail world_both_fail "example.com")).
    split; [now exists connection_error | now exists webdriver_error].
  - destruct (C6_init_fails_iff_both_fail world_fallback "example.com")
      as [_ [[[e H]|H] _]]; [discriminate H | exact H].
Defined.

(** C7. The static step never looks at the status code: whatever the
    status of the response (200, 404, 500, ...), when the GET returns and
    the parser accepts the body, the constructor makes that one call,
    processes the document parsed from the body and returns. The dynamic
    step runs exactly when the GET or the parser raised. *)
Theorem C7_no_status_check (w : World) (url : string) :
  let u := init_url url in
  (forall status body soup,
      requests_get w u
      = inr {| Requests.status_code := status; Requests.content := body |} ->
      BeautifulSoup w (MarkupBytes body) "html.parser" = inr soup ->
      Website__init__ w url
      = ([Call_requests_get u], Ret (_process_content u soup)))
  /\ (count is_install (fst (Website__init__ w url)) = 1
      <-> static_raises w u)
  /\ (count is_install (fst (Website__init__ w url)) = 0
      <-> ~ static_raises w u).
Proof.
  cbv zeta. split.
  - intros status body soup Hget Hparse.
    rewrite init_run, fetch_static_run, Hget. cbn [Requests.content].
    now rewrite Hparse.
  - pose proof (fetch_static_fails_iff w (init_url url)) as Hiff.
    pose proof (fetch_static_no_install w (init_url url)) as H0.
    pose proof (fetch_static_outcome w (init_url url)) as Hs.
    rewrite init_run. unfold fails, returns in *.
    destruct (_fetch_static w (init_url url)) as [t1 [a|e1|c]];
      cbn [fst snd] in *.
    + assert (Hno : ~ static_raises w (init_url url)).
      { intros H. apply Hiff in H. destruct H as [e H]. discriminate. }
      rewrite H0. split; split; intros H; try discriminate; tauto.
    + assert (Hyes : static_raises w (init_url url)).
      { apply Hiff. now exists e1. }
      rewrite count_app, H0, fetch_dynamic_installs_once. simpl.
      split; split; intros H; try discriminate; tauto.
    + destruct Hs as [[e H]|[a H]]; discriminate.
Qed.

(** C7 on a response of status 404: it is processed like any other. *)
Lemma C7_status_404_witness :
  Website__init__ world_static "example.com"
  = ([Call_requests_get "https://example.com"],
     Ret (_process_content "https://example.com" page)).
Proof.
  exact (proj1 (C7_no_status_check world_static "example.com")
               404%Z [] page eq_refl eq_refl).
Defined.

(** *** The prompt, the request and [main] *)

(** C4. For a title [t] and a text [x], the prompt is the sentence holding
    the title, the instruction, two line feeds (the instruction ends with a
    full stop, so this is one blank line), then [x] itself, unchanged and
    whole. *)
Theorem C4_user_prompt_layout (u t x : string) :
  user_prompt_for {| url := u; title := PyStr t; text := x |}
  = ("You are looking at a website titled " ++ t ++ ". "
       ++ instruction ++ nl ++ nl ++ x)%string
  /\ instruction
     = "The contents of this website is as follows; please provide a short summary of this website in markdown. If it includes news or announcements, then summarize these too.".
Proof.
  split; [|reflexivity].
  unfold user_prompt_for. cbn [title text format_value].
  now rewrite !append_assoc.
Qed.

Lemma summarize_run w url :
  summarize w url
  = match Website__init__ w url with
    | (t, Ret site) =>
        (t ++ [Call_messages_create (create_params site)],
         match messages_create w (create_params site) with
         | inl e => Raise e
         | inr reply =>
             match Anthropic.content reply with
             | [] => Raise IndexError
             | first :: _ => Ret (Anthropic.text first)
             end
         end)
    | (t, Raise e) => (t, Raise e)
    | (t, SysExit c) => (t, SysExit c)
    end.
Proof.
  unfold summarize.
  destruct (Website__init__ w url) as [t [site|e|c]]; try reflexivity.
  cbv [bind call of_result index0 raise ret].
  destruct (messages_create w (create_params site)) as [e|reply];
    [reflexivity|].
  destruct (Anthropic.content reply); cbn [app]; now rewrite ?app_nil_r.
Qed.

Lemma init_no_exit w url c : snd (Website__init__ w url) <> SysExit c.
Proof.
  destruct (init_outcome w url) as [[e H]|[a H]]; rewrite H; discriminate.
Qed.

Lemma summarize_no_exit w url c : snd (summarize w url) <> SysExit c.
Proof.
  rewrite summarize_run. pose proof (init_no_exit w url) as Hn.
  destruct (Website__init__ w url) as [t [site|e|c']]; cbn [snd] in *.
  - destruct (messages_create w (create_params site)) as [e|reply];
      [discriminate|].
    destruct (Anthropic.content reply); discriminate.
  - discriminate.
  - exfalso. now apply (Hn c').
Qed.

Lemma main_run w prog url :
  main w [prog; url]
  = match summarize w url with
    | (t, Ret summary) => (t ++ [Call_print summary], Ret tt)
    | (t, Raise e) =>
        (t ++ [Call_print ("Error: " ++ exc_msg e)%string], SysExit 1%Z)
    | (t, SysExit c) => (t, SysExit c)
    end.
Proof.
  unfold main. cbn [List.length Nat.eqb negb nth].
  cbv [try_except bind print sys_exit].
  destruct (summarize w url) as [t [summary|e|c]]; reflexivity.
Qed.

(** C5, as the script has it. Once the page is extracted and the service
    has replied, [summarize] returns the text of the first segment of the
    reply; on a reply without segments the indexing [content[0]] raises
    [IndexError] ("list index out of range"), which is not the service's
    error class and is not replaced by an empty string: it leaves
    [summarize] as it is, and [main] reports it as an error and exits
    with status 1. *)
Theorem C5_first_segment_or_IndexError (w : World) (url : string)
    (t : list event) (site : Website) (reply : Anthropic.Message)
    (Hsite : Website__init__ w url = (t, Ret site))
    (Hreply : messages_create w (create_params site) = inr reply) :
  summarize w url
  = (t ++ [Call_messages_create (create_params site)],
     match Anthropic.content reply with
     | first :: _ => Ret (Anthropic.text first)
     | [] => Raise IndexError
     end)
  /\ is_APIError IndexError = false
  /\ (Anthropic.content reply = [] ->
      forall prog,
        main w [prog; url]
        = (t ++ [Call_messages_create (create_params site);
                 Call_print "Error: list index out of range"],
           SysExit 1%Z)).
Proof.
  assert (Hrun : summarize w url
                 = (t ++ [Call_messages_create (create_params site)],
                    match Anthropic.content reply with
                    | first :: _ => Ret (Anthropic.text first)
                    | [] => Raise IndexError
                    end)).
  { rewrite summarize_run, Hsite, Hreply.
    now destruct (Anthropic.content reply). }
  split; [exact Hrun|]. split; [reflexivity|].
  intros Hempty prog. rewrite main_run, Hrun, Hempty.
  now rewrite <- app_assoc.
Qed.

(** C5 on a reply of one segment: its text is returned. *)
Lemma C5_first_segment_witness :
  snd (summarize world_static "example.com") = Ret "# Summary".
Proof.
  pose proof (C5_first_segment_or_IndexError world_static "example.com"
                [Call_requests_get "https://example.com"]
                (_process_content "https://example.com" page)
                (reply ["# Summary"]) eq_refl eq_refl) as [H _].
  rewrite H. reflexivity.
Defined.

(** C5 as stated fails: on a reply without segments the script raises
    [IndexError], the error of the indexing itself, and not the error
    class of the service. *)
Lemma C5_empty_reply_counterexample :
  Anthropic.content (reply []) = []
  /\ messages_create world_empty_reply
       (create_params (_process_content "https://example.com" page))
     = inr (reply [])
  /\ snd (summarize world_empty_reply "example.com")
     = Raise (mkExc "IndexError" "list index out of range")
  /\ snd (index0 (Anthropic.content (reply [])))
     = Raise (mkExc "IndexError" "list index out of range")
  /\ is_APIError (mkExc "IndexError" "list index out of range") = false.
Proof. repeat split. Qed.

(** C9. With an argument list that is not the program name and one URL,
    [main] prints the usage line, the two examples and the reminder of the
    API key, makes no other call, and exits with status 1. With one URL:
    when [summarize] returns, the summary is printed and the status is 0;
    when it raises, ["Error: "] followed by the message is printed and the
    status is 1. [summarize] ends in one of these two ways. *)
Theorem C9_main_exit_status (w : World) (argv : list string) :
  (List.length argv <> 2 ->
   main w argv
   = ([Call_print "Usage: python summarize.py <url>";
       Call_print "Examples:";
       Call_print "  python summarize.py cnn.com";
       Call_print "  python summarize.py https://www.bbc.com";
       Call_print (nl ++ "Note: Make sure you have set the ANTHROPIC_API_KEY environment variable")%string],
      SysExit 1%Z)
   /\ exit_status (snd (main w argv)) = 1%Z
   /\ count is_print (fst (main w argv)) = List.length (fst (main w argv)))
  /\ (forall prog url t summary,
        argv = [prog; url] ->
        summarize w url = (t, Ret summary) ->
        main w argv = (t ++ [Call_print summary], Ret tt)
        /\ exit_status (snd (main w argv)) = 0%Z)
  /\ (forall prog url t e,
        argv = [prog; url] ->
        summarize w url = (t, Raise e) ->
        main w argv
        = (t ++ [Call_print ("Error: " ++ exc_msg e)%string], SysExit 1%Z)
        /\ exit_status (snd (main w argv)) = 1%Z)
  /\ (forall url, fails (summarize w url) \/ returns (summarize w url)).
Proof.
  split; [|split; [|split]].
  - intros Hlen. unfold main.
    destruct (List.length argv =? 2)%nat eqn:E.
    + apply Nat.eqb_eq in E. contradiction.
    + repeat split.
  - intros prog url t summary -> Hs. rewrite main_run, Hs. now split.
  - intros prog url t e -> Hs. rewrite main_run, Hs. now split.
  - intros url. pose proof (summarize_no_exit w url) as Hn.
    unfold fails, returns.
    destruct (summarize w url) as [t [s|e|c]]; cbn [snd] in *; eauto.
    exfalso. now apply (Hn c).
Qed.

(** C9 without a URL, with a URL that is summarized, and with a reply
    that makes [summarize] raise. *)
Lemma C9_main_witness :
  exit_status (snd (main world_static ["summarize.py"])) = 1%Z
  /\ exit_status (snd (main world_static ["summarize.py"; "example.com"]))
     = 0%Z
  /\ exit_status
       (snd (main world_empty_reply ["summarize.py"; "example.com"]))
     = 1%Z.
Proof.
  split; [|split].
  - destruct (C9_main_exit_status world_static ["summarize.py"]) as [H _].
    apply H. discriminate.
  - destruct (C9_main_exit_status world_static
                ["summarize.py"; "example.com"]) as [_ [H _]].
    exact (proj2 (H "summarize.py" "example.com" _ _ eq_refl eq_refl)).
  - destruct (C9_main_exit_status world_empty_reply
                ["summarize.py"; "example.com"]) as [_ [_ [H _]]].
    exact (proj2 (H "summarize.py" "example.com" _ _ eq_refl eq_refl)).
Defined.

(** *** Processing the parsed document *)

Lemma find_none_iff nm soup : find nm soup = None <-> no_element nm soup.
Proof.
  unfold find, no_element. split.
  - intros H d Hd. exact (find_none _ _ H d Hd).
  - intros H. induction (descendants soup) as [|d l IH]; [reflexivity|].
    simpl. rewrite (H d (or_introl eq_refl)). apply IH.
    intros d' Hd'. apply H. now right.
Qed.

Lemma find_first nm soup t : first_element nm soup t -> find nm soup = Some t.
Proof.
  unfold find. intros [before [after [Hd [Ht Hb]]]]. rewrite Hd. clear Hd.
  induction before as [|d l IH]; simpl.
  - now rewrite Ht.
  - rewrite (Hb d (or_introl eq_refl)). apply IH.
    intros d' Hd'. apply Hb. now right.
Qed.

(** C8. A document without any [title] element gets the title
    ["No title found"]. A document whose title element, the first in
    document order, holds one string gets that string as its title: for
    [<title>Example</title>] the title is ["Example"]. *)
Theorem C8_title_or_sentinel (u : string) (soup : node) :
  (no_element "title" soup ->
   title (_process_content u soup) = PyStr "No title found")
  /\ (forall i a j k s,
        first_element "title" soup (Tag i "title" a [Str j k s]) ->
        title (_process_content u soup) = PyStr s)
  /\ (forall i a j k,
        first_element "title" soup (Tag i "title" a [Str j k "Example"]) ->
        title (_process_content u soup) = PyStr "Example").
Proof.
  assert (Hs : forall i a j k s,
             first_element "title" soup (Tag i "title" a [Str j k s]) ->
             title (_process_content u soup) = PyStr s).
  { intros i a j k s H. cbn [_process_content title]. unfold title_of.
    now rewrite (find_first _ _ _ H). }
  split; [|split].
  - intros H. cbn [_process_content title]. unfold title_of.
    apply find_none_iff in H. now rewrite H.
  - exact Hs.
  - intros i a j k. apply Hs.
Qed.

Lemma page_without_title_has_none : no_element "title" page_without_title.
Proof. apply find_none_iff. reflexivity. Qed.

Lemma page_first_title :
  first_element "title" page
    (Tag 3 "title" [] [Str 4 NavigableString "Example"]).
Proof.
  eexists [_; _], _. split; [reflexivity|]. split; [reflexivity|].
  intros d [<-|[<-|[]]]; reflexivity.
Qed.

(** C8 on a page without a title and on a page titled [Example]. *)
Lemma C8_title_witness :
  title (_process_content "u" page_without_title) = PyStr "No title found"
  /\ title (_process_content "u" page) = PyStr "Example".
Proof.
  split.
  - apply (proj1 (C8_title_or_sentinel "u" page_without_title)).
    exact page_without_title_has_none.
  - apply (proj2 (proj2 (C8_title_or_sentinel "u" page))
             3 [] 4 NavigableString).
    exact page_first_title.
Defined.

(** C10. When the document has a [title] element and that element has no
    single string ([tag.string] is [None]: the element is empty, or holds
    several children), the title is [None], not ["No title found"], and the
    prompt reads "titled None". Whenever a [title] element is there, the
    title is what [tag.string] gives: the sentinel is for documents without
    the element. *)
Theorem C10_title_without_string_is_None (u : string) (soup t : node)
    (Hfirst : first_element "title" soup t)
    (Hnone : tag_string t = None) :
  title (_process_content u soup) = PyNone
  /\ title (_process_content u soup) <> PyStr "No title found"
  /\ user_prompt_for (_process_content u soup)
     = ("You are looking at a website titled None. "
          ++ instruction ++ nl ++ nl
          ++ text (_process_content u soup))%string
  /\ (forall soup' t',
        first_element "title" soup' t' ->
        title (_process_content u soup')
        = match tag_string t' with Some s => PyStr s | None => PyNone end)
  /\ (forall i a, tag_string (Tag i "title" a []) = None)
  /\ (forall i a c1 c2 cs, tag_string (Tag i "title" a (c1 :: c2 :: cs)) = None).
Proof.
  assert (Hgen : forall soup' t',
             first_element "title" soup' t' ->
             title (_process_content u soup')
             = match tag_string t' with
               | Some s => PyStr s
               | None => PyNone
               end).
  { intros soup' t' H. cbn [_process_content title]. unfold title_of.
    now rewrite (find_first _ _ _ H). }
  assert (Ht : title (_process_content u soup) = PyNone).
  { rewrite (Hgen soup t Hfirst). now rewrite Hnone. }
  split; [exact Ht|]. split; [rewrite Ht; discriminate|].
  split; [|split; [exact Hgen | split; reflexivity]].
  unfold user_prompt_for. rewrite Ht. cbn [format_value].
  now rewrite !append_assoc.
Qed.

Lemma page_empty_title_first :
  first_element "title" page_empty_title (Tag 3 "title" [] []).
Proof.
  eexists [_; _], _. split; [reflexivity|]. split; [reflexivity|].
  intros d [<-|[<-|[]]]; reflexivity.
Qed.

(** C10 on [<title></title>]. *)
Lemma C10_empty_title_witness :
  title (_process_content "u" page_empty_title) = PyNone.
Proof.
  exact (proj1 (C10_title_without_string_is_None "u" page_empty_title
                  (Tag 3 "title" [] []) page_empty_title_first eq_refl)).
Defined.

Lemma remove_irrelevant_prune soup :
  distinct_ids soup -> remove_irrelevant soup = prune irrelevant_tags soup.
Proof. apply decompose_all_prune. Qed.

Lemma find_in {A} (p : A -> bool) l x : List.find p l = Some x -> In x l.
Proof. intros H. now apply find_some in H. Qed.

(** C2. For a parsed document whose elements are distinct objects, the
    text is: the strings of the text nodes below the document body that
    are not inside a [script], [style], [img], [input], [iframe] or
    [noscript] element, in document order, each trimmed, those with
    nothing left dropped, joined by line feeds. Without a [body] element
    the text is empty. Nothing from inside an excluded element is among
    these nodes; no excluded element is left in the cleaned tree; the
    elements kept are exactly those with no excluded element on the way
    down to them, and they keep the order of the document. *)
Theorem C2_text_of_cleaned_body (u : string) (soup : node)
    (Hids : distinct_ids soup) :
  text (_process_content u soup) = spec_text soup
  /\ (no_element "body" soup -> text (_process_content u soup) = "")
  /\ (forall body e x,
        document_body soup = Some body ->
        In e (descendants soup) -> name_in irrelevant_tags e = true ->
        x = e \/ In x (descendants e) ->
        ~ In x (visible_descendants irrelevant_tags body))
  /\ (forall d, In d (descendants (remove_irrelevant soup)) ->
                name_in irrelevant_tags d = false)
  /\ (forall d,
        In d (visible_descendants irrelevant_tags soup)
        <-> In d (descendants soup)
            /\ forall e, In e (descendants soup) ->
                         d = e \/ In d (descendants e) ->
                         name_in irrelevant_tags e = false)
  /\ (forall body,
        subseq (visible_descendants irrelevant_tags body)
               (descendants body)).
Proof.
  assert (Htext : text (_process_content u soup) = spec_text soup).
  { cbn [_process_content text]. unfold body_text, spec_text, document_body.
    rewrite (remove_irrelevant_prune soup Hids), find_prune.
    destruct (List.find (name_in ["body"])
                (visible_descendants irrelevant_tags soup)) as [body|];
      cbn [option_map]; [|reflexivity].
    unfold get_text, visible_text_nodes.
    now rewrite all_strings_stripped_prune. }
  split; [exact Htext|]. split; [|split; [|split; [|split]]].
  - intros Hno. rewrite Htext. unfold spec_text, document_body.
    destruct (List.find (name_in ["body"])
                (visible_descendants irrelevant_tags soup)) as [body|] eqn:E;
      [|reflexivity].
    apply find_some in E. destruct E as [Hin Hname].
    apply visible_descendants_incl in Hin.
    rewrite (Hno body Hin) in Hname. discriminate.
  - intros body e x Hbody He Hname Hx Hvis.
    apply find_in in Hbody.
    apply (hidden_below_named irrelevant_tags soup e x Hids He Hname Hx).
    eapply visible_descendants_trans; eauto.
  - intros d Hd. rewrite (remove_irrelevant_prune soup Hids) in Hd.
    rewrite descendants_prune in Hd. apply in_map_iff in Hd.
    destruct Hd as [d0 [<- Hd0]]. rewrite prune_name_in.
    eapply visible_descendants_unnamed; eauto.
  - intros d. now apply visible_descendants_iff.
  - intros body. apply visible_descendants_subseq.
Qed.

Lemma page_distinct_ids : distinct_ids page.
Proof.
  unfold distinct_ids. cbv.
  repeat (constructor; [intros H; repeat (destruct H as [H|H]; [discriminate H|]); exact H|]).
  constructor.
Qed.

(** C2 on the sample page: the two paragraphs, one per line. *)
Lemma C2_text_witness :
  text (_process_content "u" page) = ("Hello" ++ nl ++ "World")%string.
Proof.
  rewrite (proj1 (C2_text_of_cleaned_body "u" page page_distinct_ids)).
  reflexivity.
Defined.

End SummarizeFacts.

(* ================================================================== *)
(** ** Further properties of the script *)

Module MoreFacts.
Import Bs4 Bs4Facts Summarize Examples Startup Observations SummarizeFacts.

(** *** Retrieval *)

Lemma init_url_has_scheme url : has_scheme (init_url url).
Proof.
  unfold init_url.
  destruct (PyStr.startswith_any url scheme_prefixes) eqn:E; simpl.
  - now apply has_scheme_iff.
  - exists url. now right.
Qed.

Lemma init_makes_no_request w url :
  count is_create (fst (Website__init__ w url)) = 0.
Proof. run; reflexivity. Qed.


(** X1. No retry: whatever the collaborators answer, the constructor makes
    exactly one HTTP GET, as its first call, and makes each browser call
    (installing the driver, launching, navigating, sleeping, reading the
    page source, quitting) at most once. It never calls the
    text-generation service and never prints. *)
Theorem X1_each_step_at_most_once (w : World) (url : string) :
  (exists t, fst (Website__init__ w url)
             = Call_requests_get (init_url url) :: t)
  /\ count is_get (fst (Website__init__ w url)) = 1
  /\ count is_install (fst (Website__init__ w url)) <= 1
  /\ count is_launch (fst (Website__init__ w url)) <= 1
  /\ count is_navigate (fst (Website__init__ w url)) <= 1
  /\ count is_sleep (fst (Website__init__ w url)) <= 1
  /\ count is_page_source (fst (Website__init__ w url)) <= 1
  /\ count is_quit (fst (Website__init__ w url)) <= 1
  /\ count is_create (fst (Website__init__ w url)) = 0
  /\ count is_print (fst (Website__init__ w url)) = 0.
Proof.
  run; (split; [eexists; reflexivity|]);
    cbv [count filter List.length is_get is_install is_launch is_navigate
         is_sleep is_page_source is_quit is_create is_print];
    repeat split; lia.
Qed.

(** X2. Every call that takes a URL, the GET and the navigation of the
    browser, goes to the normalized URL, which has a scheme. *)
Theorem X2_every_request_uses_normalized_url (w : World) (url : string) :
  Forall (goes_to (init_url url)) (fst (Website__init__ w url))
  /\ has_scheme (init_url url).
Proof.
  split; [|apply init_url_has_scheme].
  run; repeat constructor.
Qed.

(** X3. With a driver in hand, an exception of [driver.quit()] is the
    exception of the dynamic step, whatever happened before: it replaces
    the page that was processed or the exception that was on its way. *)
Theorem X3_quit_error_replaces_outcome (w : World) (u : string) (e : exc)
    (Hstart : driver_started w = true) (Hquit : driver_quit w = inl e) :
  snd (_fetch_dynamic w u) = Raise e
  /\ count is_quit (fst (_fetch_dynamic w u)) = 1.
Proof.
  revert Hstart Hquit. run; intros Hstart Hquit;
    try discriminate; split; congruence || reflexivity.
Qed.

(** X3 where the page was rendered and processed and the shutdown of the
    browser raises. *)
Lemma X3_quit_error_witness :
  snd (_fetch_dynamic world_quit_fails "https://example.com")
  = Raise timeout_error.
Proof.
  exact (proj1 (X3_quit_error_replaces_outcome world_quit_fails
                  "https://example.com" timeout_error eq_refl eq_refl)).
Defined.

(** X4. The dynamic step returns exactly when every step of it succeeds:
    the driver is installed, the browser launched, the navigation done, the
    page source read and parsed, the browser quit. It then returns the
    processed rendered page, after these six calls and the sleep. *)
Theorem X4_dynamic_returns_iff (w : World) (u : string) (site : Website) :
  (snd (_fetch_dynamic w u) = Ret site
   <-> exists path src soup,
        ChromeDriverManager_install w = inr path
        /\ webdriver_Chrome w path chrome_options = inr tt
        /\ driver_get w u = inr tt
        /\ driver_page_source w = inr src
        /\ BeautifulSoup w (MarkupStr src) "html.parser" = inr soup
        /\ driver_quit w = inr tt
        /\ site = _process_content u soup)
  /\ (forall path,
        snd (_fetch_dynamic w u) = Ret site ->
        ChromeDriverManager_install w = inr path ->
        fst (_fetch_dynamic w u)
        = [Call_ChromeDriverManager_install;
           Call_webdriver_Chrome path chrome_options;
           Call_driver_get u; Call_time_sleep 5;
           Call_driver_page_source; Call_driver_quit]).
Proof.
  split; [split|].
  - run; intros H; try discriminate H.
    inversion H; subst.
    repeat match goal with x : unit |- _ => destruct x end.
    eauto 12.
  - intros (path & src & soup & H1 & H2 & H3 & H4 & H5 & H6 & ->).
    cbv [_fetch_dynamic dynamic_body try_finally call time_sleep of_result
         bind ret].
    rewrite H1, H2, H3, H4, H5, H6. reflexivity.
  - intros path. run; intros H Hp; try discriminate H.
    inversion Hp; subst. reflexivity.
Qed.

(** X5. The browser waits five seconds exactly when the navigation was
    done, and reads the page source exactly when it has waited: the page
    source is never read without the wait, and the wait is always of five
    seconds. *)
Theorem X5_fixed_wait_before_page_source (w : World) (u : string) :
  (count is_sleep (fst (_fetch_dynamic w u)) = 1
   <-> driver_started w = true /\ driver_get w u = inr tt)
  /\ count is_page_source (fst (_fetch_dynamic w u))
     = count is_sleep (fst (_fetch_dynamic w u))
  /\ Forall (fun ev => is_sleep ev = true -> ev = Call_time_sleep 5)
            (fst (_fetch_dynamic w u)).
Proof.
  run; (split; [|split]);
    try reflexivity;
    try (repeat constructor; simpl; intros; discriminate || reflexivity);
    (split; [intros H; try discriminate H | intros [H1 H2]; try discriminate]);
    try reflexivity;
    repeat match goal with x : unit |- _ => destruct x end; auto.
Qed.

(** *** The request and [main] *)

(** X6. The text-generation service is called only once the page was
    extracted, then once, as the last call, with the request built from the
    extracted page. When the extraction raises, [summarize] raises the same
    exception after the same calls and the service is not called. *)
Theorem X6_service_called_once_after_extraction (w : World) (url : string) :
  (forall t site,
      Website__init__ w url = (t, Ret site) ->
      fst (summarize w url) = t ++ [Call_messages_create (create_params site)]
      /\ count is_create (fst (summarize w url)) = 1)
  /\ (forall t e,
        Website__init__ w url = (t, Raise e) ->
        summarize w url = (t, Raise e)
        /\ count is_create (fst (summarize w url)) = 0).
Proof.
  pose proof (init_makes_no_request w url) as Hno.
  split; intros t x H; rewrite summarize_run, H; rewrite H in Hno;
    cbn [fst snd] in *.
  - split; [reflexivity|]. rewrite count_app, Hno. reflexivity.
  - split; [reflexivity | exact Hno].
Qed.

(** X6 where the page is served, and where nothing can be fetched. *)
Lemma X6_service_witness :
  count is_create (fst (summarize world_static "example.com")) = 1
  /\ count is_create (fst (summarize world_both_fail "example.com")) = 0.
Proof.
  split.
  - exact (proj2 (proj1 (X6_service_called_once_after_extraction
                           world_static "example.com") _ _ eq_refl)).
  - exact (proj2 (proj2 (X6_service_called_once_after_extraction
                           world_both_fail "example.com")
                    _ webdriver_error eq_refl)).
Defined.

(** X7. An exception of the text-generation service is not caught or
    changed by [summarize]: it is the exception [summarize] raises, and
    [main] prints its message after ["Error: "] and exits with status 1. *)
Theorem X7_service_error_propagates (w : World) (url : string)
    (t : list event) (site : Website) (e : exc)
    (Hsite : Website__init__ w url = (t, Ret site))
    (Herr : messages_create w (create_params site) = inl e) :
  summarize w url
  = (t ++ [Call_messages_create (create_params site)], Raise e)
  /\ (forall prog,
        main w [prog; url]
        = (t ++ [Call_messages_create (create_params site);
                 Call_print ("Error: " ++ exc_msg e)%string],
           SysExit 1%Z)).
Proof.
  assert (Hrun : summarize w url
                 = (t ++ [Call_messages_create (create_params site)],
                    Raise e)).
  { now rewrite summarize_run, Hsite, Herr. }
  split; [exact Hrun|]. intros prog.
  rewrite main_run, Hrun. now rewrite <- app_assoc.
Qed.

(** X7 where the service raises. *)
Lemma X7_service_error_witness :
  snd (summarize world_service_fails "example.com") = Raise api_error
  /\ snd (main world_service_fails ["summarize.py"; "example.com"])
     = SysExit 1%Z.
Proof.
  destruct (X7_service_error_propagates world_service_fails "example.com"
              [Call_requests_get "https://example.com"]
              (_process_content "https://example.com" page)
              api_error eq_refl eq_refl) as [H1 H2].
  split; [now rewrite H1 | now rewrite (H2 "summarize.py")].
Defined.





(** *** Cleaning and the text *)

Lemma find_all_none names n :
  (forall d, In d (descendants n) -> name_in names d = false) ->
  find_all names n = [].
Proof.
  unfold find_all. intros H.
  induction (descendants n) as [|d l IH]; [reflexivity|].
  simpl. rewrite (H d (or_introl eq_refl)). apply IH.
  intros d' Hd'. apply H. now right.
Qed.

Lemma mem_id_same ids ids' :
  (forall i, In i ids <-> In i ids') ->
  forall j, mem_id ids j = mem_id ids' j.
Proof.
  intros H j. unfold mem_id.
  destruct (existsb (Nat.eqb j) ids) eqn:E1, (existsb (Nat.eqb j) ids') eqn:E2;
    try reflexivity.
  - apply existsb_exists in E1. destruct E1 as [i [Hi Hij]].
    apply H in Hi. rewrite <- E2. symmetry.
    apply existsb_exists. now exists i.
  - apply existsb_exists in E2. destruct E2 as [i [Hi Hij]].
    apply H in Hi. rewrite <- E1.
    apply existsb_exists. now exists i.
Qed.

(** X10. Cleaning twice is cleaning once, and a document without a
    [script], [style], [img], [input], [iframe] or [noscript] element is
    left as it is: processing an already cleaned document gives the same
    text. *)
Theorem X10_cleaning_is_idempotent (soup : node) (Hids : distinct_ids soup) :
  remove_irrelevant (remove_irrelevant soup) = remove_irrelevant soup
  /\ (forall u u',
        text (_process_content u (remove_irrelevant soup))
        = text (_process_content u' soup))
  /\ (forall doc,
        (forall d, In d (descendants doc) ->
                   name_in irrelevant_tags d = false) ->
        remove_irrelevant doc = doc).
Proof.
  assert (Hsame : forall doc,
             (forall d, In d (descendants doc) ->
                        name_in irrelevant_tags d = false) ->
             remove_irrelevant doc = doc).
  { intros doc H. unfold remove_irrelevant.
    now rewrite (find_all_none _ _ H). }
  assert (Htwice : remove_irrelevant (remove_irrelevant soup)
                   = remove_irrelevant soup).
  { apply Hsame. intros d Hd.
    rewrite (remove_irrelevant_prune soup Hids), descendants_prune in Hd.
    apply in_map_iff in Hd. destruct Hd as [d0 [<- Hd0]].
    rewrite prune_name_in. eapply visible_descendants_unnamed; eauto. }
  split; [exact Htwice|]. split; [|exact Hsame].
  intros u u'. cbn [_process_content text]. now rewrite Htwice.
Qed.

(** X10 on the sample page. *)
Lemma X10_cleaning_witness :
  remove_irrelevant (remove_irrelevant page) = remove_irrelevant page.
Proof.
  exact (proj1 (X10_cleaning_is_idempotent page page_distinct_ids)).
Defined.

(** X11. The loop of [_process_content] does not depend on the order in
    which the elements found are decomposed, nor on an element being
    decomposed more than once: decomposing, in any order and with
    repetitions, the elements [find_all] returned leaves the same tree. *)
Theorem X11_decompose_order_does_not_matter (soup : node) (l : list node)
    (Hsame : forall e, In e l <-> In e (find_all irrelevant_tags soup)) :
  fold_left (fun soup irrelevant => decompose irrelevant soup) l soup
  = remove_irrelevant soup.
Proof.
  unfold remove_irrelevant. rewrite !fold_decompose_remove_ids.
  apply remove_ids_ext. apply mem_id_same. intros i.
  rewrite !in_map_iff. split; intros [e [He Hin]]; exists e;
    (split; [exact He | now apply Hsame]).
Qed.

(** X11 on the sample page: the elements found, last to first, the
    [noscript] element once more at the end. *)
Lemma X11_decompose_order_witness :
  fold_left (fun soup irrelevant => decompose irrelevant soup)
    (rev (find_all irrelevant_tags page)
       ++ [Tag 12 "noscript" []
             [Tag 13 "img" [("src", "x")] [];
              Str 14 NavigableString "hidden"]])
    page
  = remove_irrelevant page.
Proof.
  apply X11_decompose_order_does_not_matter.
  intros e. rewrite in_app_iff, <- in_rev. split.
  - intros [H|[<-|[]]]; [exact H|]. cbv. tauto.
  - intros H. now left.
Defined.

Lemma lstrip_fixed c s :
  PyStr.isspace c = false -> PyStr.lstrip (String c s) = String c s.
Proof. intros H. simpl. now rewrite H. Qed.

Lemma rstrip_head c s :
  PyStr.rstrip (String c s) <> EmptyString ->
  exists r, PyStr.rstrip (String c s) = String c r.
Proof.
  simpl. destruct (PyStr.rstrip s) as [|c' r'].
  - destruct (PyStr.isspace c); [congruence | now exists EmptyString].
  - intros _. now exists (String c' r').
Qed.

Lemma rstrip_idempotent s : PyStr.rstrip (PyStr.rstrip s) = PyStr.rstrip s.
Proof.
  induction s as [|c s IH]; [reflexivity|]. simpl.
  destruct (PyStr.rstrip s) as [|c' r'] eqn:E.
  - destruct (PyStr.isspace c) eqn:Ec; [reflexivity|]. simpl. now rewrite Ec.
  - simpl. simpl in IH. destruct (PyStr.rstrip r') as [|c'' r''] eqn:E'.
    + destruct (PyStr.isspace c') eqn:Ec'; [discriminate IH|].
      now rewrite IH.
    + now rewrite IH.
Qed.

Lemma lstrip_starts s :
  PyStr.lstrip s = EmptyString
  \/ exists c r, PyStr.lstrip s = String c r /\ PyStr.isspace c = false.
Proof.
  induction s as [|c s IH]; simpl; [now left|].
  destruct (PyStr.isspace c) eqn:Ec; [exact IH|].
  right. now exists c, s.
Qed.

(** A stripped string that is not empty starts and ends with something
    that is not a space: stripping on either side changes nothing. *)
Lemma strip_piece s :
  PyStr.strip s <> EmptyString ->
  (exists c r, PyStr.strip s = String c r /\ PyStr.isspace c = false)
  /\ PyStr.rstrip (PyStr.strip s) = PyStr.strip s.
Proof.
  unfold PyStr.strip. intros Hne. split; [|apply rstrip_idempotent].
  destruct (lstrip_starts s) as [H|[c [r [H Hc]]]]; rewrite H in *.
  - now elim Hne.
  - destruct (rstrip_head c r Hne) as [r' Hr]. rewrite Hr. now exists c, r'.
Qed.

Lemma rstrip_append a b :
  PyStr.rstrip b <> EmptyString ->
  PyStr.rstrip (a ++ b) = (a ++ PyStr.rstrip b)%string.
Proof.
  intros Hb. induction a as [|c a IH]; [reflexivity|].
  simpl. rewrite IH. destruct (a ++ PyStr.rstrip b)%string eqn:E;
    [|reflexivity].
  destruct a; simpl in E; [now elim Hb | discriminate E].
Qed.

Lemma all_strings_pieces n : Forall piece_ok (all_strings_stripped n).
Proof.
  unfold all_strings_stripped.
  induction (descendants n) as [|d l IH]; simpl; [constructor|].
  apply Forall_app. split; [|exact IH].
  destruct d as [i nm a cs|i k s]; [constructor|].
  destruct (interesting k); [|constructor].
  cbv zeta. destruct (PyStr.is_empty (PyStr.strip s)) eqn:E; [constructor|].
  constructor; [|constructor]. apply strip_piece.
  intros H. rewrite H in E. discriminate E.
Qed.

Lemma join_pieces sep ps :
  Forall piece_ok ps ->
  PyStr.strip (PyStr.join sep ps) = PyStr.join sep ps.
Proof.
  unfold PyStr.join. intros H.
  assert (Hr : PyStr.rstrip (String.concat sep ps) = String.concat sep ps
               /\ (ps <> [] -> String.concat sep ps <> EmptyString)).
  { induction H as [|p ps [[c [r [-> Hc]]] Hp] Hps IH]; [split; [reflexivity | congruence]|].
    destruct IH as [IH1 IH2]. destruct ps as [|q ps].
    - simpl. split; [exact Hp | discriminate].
    - change (String.concat sep (String c r :: q :: ps))
        with (String c r ++ (sep ++ String.concat sep (q :: ps)))%string.
      split; [|discriminate].
      assert (Hq : String.concat sep (q :: ps) <> EmptyString)
        by (apply IH2; discriminate).
      rewrite <- append_assoc.
      rewrite rstrip_append; rewrite IH1; [reflexivity | exact Hq]. }
  unfold PyStr.strip. destruct H as [|p ps [[c [r [-> Hc]]] Hp] Hps].
  - reflexivity.
  - assert (Hl : PyStr.lstrip (String.concat sep (String c r :: ps))
                 = String.concat sep (String c r :: ps)).
    { destruct ps; simpl; now rewrite Hc. }
    rewrite Hl. apply Hr.
Qed.

(** X12. The extracted text is itself stripped: it is empty or it starts
    and ends with something that is not white space, whatever the
    document. *)
Theorem X12_text_is_stripped (u : string) (soup : node) :
  PyStr.strip (text (_process_content u soup)) = text (_process_content u soup).
Proof.
  cbn [_process_content text]. unfold body_text.
  destruct (find "body" (remove_irrelevant soup)) as [body|]; [|reflexivity].
  unfold get_text. apply join_pieces, all_strings_pieces.
Qed.

(** *** Where the object comes from, and the start of the script *)

(** X13. A [Website] the constructor returns is the processing of exactly
    one document, under the normalized URL: the document parsed from the
    body of the response, after the single GET and nothing else, or, only
    when the static step raised, the document parsed from the page source
    of the browser. *)
Theorem X13_website_comes_from_one_document (w : World) (url : string)
    (site : Website) (Hsite : snd (Website__init__ w url) = Ret site) :
  let u := init_url url in
  Summarize.url site = u
  /\ ((exists r soup,
          requests_get w u = inr r
          /\ BeautifulSoup w (MarkupBytes (Requests.content r)) "html.parser"
             = inr soup
          /\ site = _process_content u soup
          /\ fst (Website__init__ w url) = [Call_requests_get u])
      \/ (static_raises w u
          /\ exists src soup,
              driver_page_source w = inr src
              /\ BeautifulSoup w (MarkupStr src) "html.parser" = inr soup
              /\ site = _process_content u soup)).
Proof.
  cbv zeta. revert Hsite. unfold static_raises.
  run; intros H; try discriminate H; inversion H; subst;
    (split; [reflexivity|]).
  - right. split; [left; eauto|].
    eexists _, _. repeat split; eauto.
  - right. split; [right; eexists _, _; split; eauto|].
    eexists _, _. repeat split; eauto.
  - left. eexists _, _. repeat split; eauto.
Qed.

(** X13 where the page is served, and where the browser steps in. *)
Lemma X13_website_witness :
  Summarize.url (_process_content "https://example.com" page)
  = "https://example.com".
Proof.
  exact (proj1 (X13_website_comes_from_one_document world_fallback
                  "example.com"
                  (_process_content "https://example.com" page) eq_refl)).
Defined.



End MoreFacts.
